(** * eos: the OpenCV drawing utilities (include/eos/render/opencv/draw_utils.hpp)

    A shallow embedding of [draw_wireframe] and [draw_texcoords] together
    with what they call, and the properties of the two renderers.

    Conventions of the embedding.
    - A C++ [float] (and OpenCV's [double] colour channels) is an exact
      rational [Q]: rounding, infinities and NaN are outside the model.
    - An [int] is a [Z]; a conversion that C++ leaves undefined (a [float]
      outside the range of [int], a vector index out of range) makes the
      computation fail.
    - A [cv::Mat] is a header (rows, cols, type, data pointer) onto a pixel
      buffer that lives in a store and is shared by every copy of the header.
    - The computation threads a [World]: the store of pixel buffers and the
      log of the calls made to [cv::line]. *)

From Stdlib Require Import ZArith QArith Qround Qabs Lia Lqa.
From stdpp Require Import base option list gmap.

Local Open Scope Z_scope.

(** ** Scalars *)

Abbreviation float := Q (only parsing).

Definition Qltb (a b : Q) : bool :=
  (Qnum a * Zpos (Qden b) <? Qnum b * Zpos (Qden a))%Z.

Definition INT_MIN : Z := - 2 ^ 31.
Definition INT_MAX : Z := 2 ^ 31 - 1.

(** The integer part of [q], rounding toward zero. *)
Definition truncate (q : float) : Z := Z.quot (Qnum q) (Zpos (Qden q)).

(** The implicit conversion [float -> int]: the value truncated; undefined
    when the truncated value is not an [int]. *)
Definition float_to_int (q : float) : option Z :=
  let t := truncate q in
  if (INT_MIN <=? t) && (t <=? INT_MAX) then Some t else None.

(** The implicit conversion [int -> float]. *)
Definition int_to_float (n : Z) : float := inject_Z n.

(** ** Eigen vectors and matrices *)

Record Vector2f := Vec2 { v2x : float; v2y : float }.
Record Vector3f := Vec3 { v3x : float; v3y : float; v3z : float }.
Record Vector4f := Vec4 { v4x : float; v4y : float; v4z : float; v4w : float }.
Record Matrix4f := Mat4 { row0 : Vector4f; row1 : Vector4f; row2 : Vector4f; row3 : Vector4f }.

(** [p.head<2>()] *)
Definition head2 (p : Vector3f) : Vector2f := Vec2 (v3x p) (v3y p).

(** [p.homogeneous()] *)
Definition homogeneous (p : Vector3f) : Vector4f := Vec4 (v3x p) (v3y p) (v3z p) 1%Q.

Definition dot4 (a b : Vector4f) : float :=
  (v4x a * v4x b + v4y a * v4y b + v4z a * v4z b + v4w a * v4w b)%Q.

Definition mat_vec (m : Matrix4f) (v : Vector4f) : Vector4f :=
  Vec4 (dot4 (row0 m) v) (dot4 (row1 m) v) (dot4 (row2 m) v) (dot4 (row3 m) v).

Definition identity4 : Matrix4f :=
  Mat4 (Vec4 1 0 0 0) (Vec4 0 1 0 0) (Vec4 0 0 1 0) (Vec4 0 0 0 1).

(** ** The mesh *)

(** [std::array<int, 3>] *)
Record Triangle := Tri { idx0 : Z; idx1 : Z; idx2 : Z }.

(** Modelled from the spec: the mesh type (eos/core/Mesh.hpp is not among the
    sources): an ordered sequence of vertex positions, an ordered sequence of
    triangles, each a triple of indices into the vertex sequence, and the
    per-vertex UV coordinates. *)
Record Mesh := mkMesh {
  vertices : list Vector3f;
  texcoords : list Vector2f;
  tvi : list Triangle }.

(** [v[i]] on a [std::vector], [i] an [int]: undefined out of range. *)
Definition at_index {A} (v : list A) (i : Z) : option A :=
  if 0 <=? i then v !! Z.to_nat i else None.

(** ** Winding of a triangle on the screen *)





(** ** Helpers of the repository that are not among the sources *)

Module detail.

(** Modelled from the spec: eos/render/detail/utils.hpp is not among the
    sources. The signed area is the cross product of the edge vectors
    [p2 - p1] and [p3 - p1]; with y growing downward, a counter-clockwise
    triangle is one whose cross product is negative; a zero area is not
    counter-clockwise. *)
Definition are_vertices_ccw_in_screen_space (v0 v1 v2 : Vector2f) : bool :=
  let dx01 := (v2x v1 - v2x v0)%Q in
  let dy01 := (v2y v1 - v2y v0)%Q in
  let dx02 := (v2x v2 - v2x v0)%Q in
  let dy02 := (v2y v2 - v2y v0)%Q in
  Qltb (dx01 * dy02 - dy01 * dx02)%Q 0%Q.

End detail.

Module matrix_projection.

(** Modelled from the spec: eos/render/matrix_projection.hpp is not among the
    sources. Model-view, then projection, give the clip coordinates; x, y and
    z are divided by w; the normalised device coordinates are mapped to the
    viewport (origin x, origin y, width, height) with a flip of y; the depth
    is carried through. *)
Definition project (point : Vector3f) (modelview projection : Matrix4f)
    (viewport : Vector4f) : Vector3f :=
  let eye := mat_vec modelview (homogeneous point) in
  let clip := mat_vec projection eye in
  let ndc_x := (v4x clip / v4w clip)%Q in
  let ndc_y := (v4y clip / v4w clip)%Q in
  let ndc_z := (v4z clip / v4w clip)%Q in
  Vec3 (v4x viewport + (ndc_x + 1) / 2 * v4z viewport)%Q
       (v4y viewport + (1 - ndc_y) / 2 * v4w viewport)%Q
       ndc_z.

End matrix_projection.

(** ** OpenCV: scalars, points, matrices *)

(** [cv::Scalar]: four channels. *)
Record Scalar := mkScalar { val0 : float; val1 : float; val2 : float; val3 : float }.

(** The constructor [Scalar(v0, v1, v2 = 0, v3 = 0)]: an argument left out is
    zero. *)
Definition Scalar_ (v0 v1 : float) (v2 v3 : option float) : Scalar :=
  mkScalar v0 v1 (default 0%Q v2) (default 0%Q v3).

(** [cv::Point]: integer pixel coordinates. *)
Record Point := mkPoint { px : Z; py : Z }.

(** [cv::Point2f] *)
Record Point2f := mkPoint2f { fx : float; fy : float }.

(** An end point as the caller writes it in a call of [cv::line]. *)
Inductive PointArg :=
  | FromPoint (p : Point)
  | FromPoint2f (p : Point2f).

Inductive Depth := CV_8U | CV_8S | CV_16U | CV_16S | CV_32S | CV_32F | CV_64F.

Record MatType := mkType { depth : Depth; channels : nat }.

Definition CV_8UC1 : MatType := mkType CV_8U 1.
Definition CV_8UC4 : MatType := mkType CV_8U 4.

Definition loc := positive.

(** One pixel: its channel values. *)
Definition Pixel := list float.

(** A pixel buffer, row after row. *)
Definition Buffer := list Pixel.

Record Mat := mkMat { rows : Z; cols : Z; type : MatType; data : option loc }.

(** [cv::Mat()] *)
Definition Mat_default : Mat := mkMat 0 0 CV_8UC1 None.

(** [Mat::empty()] *)
Definition Mat_empty (m : Mat) : bool :=
  match data m with
  | None => true
  | Some _ => rows m * cols m =? 0
  end.

(** [cvRound]: to the nearest integer, a tie to the even one. *)
Definition cvRound (q : float) : Z :=
  let f := Qfloor q in
  match Qcompare (q - inject_Z f) (1 # 2) with
  | Lt => f
  | Gt => f + 1
  | Eq => if Z.even f then f else f + 1
  end.

Definition clamp (lo hi v : Z) : Z := Z.max lo (Z.min hi v).

(** [saturate_cast] of a colour channel to the element type of a matrix. *)
Definition saturate_cast (d : Depth) (q : float) : float :=
  match d with
  | CV_8U => inject_Z (clamp 0 255 (cvRound q))
  | CV_8S => inject_Z (clamp (-128) 127 (cvRound q))
  | CV_16U => inject_Z (clamp 0 65535 (cvRound q))
  | CV_16S => inject_Z (clamp (-32768) 32767 (cvRound q))
  | CV_32S => inject_Z (clamp INT_MIN INT_MAX (cvRound q))
  | CV_32F | CV_64F => q
  end.

(** The pixel a matrix of type [t] holds for the colour [s]. *)
Definition pixel_of_scalar (t : MatType) (s : Scalar) : Pixel :=
  take (channels t) (saturate_cast (depth t) <$> [val0 s; val1 s; val2 s; val3 s]).

(** One call of [cv::line]. *)
Record LineCall := mkLine {
  target : Mat;
  pt1 : PointArg;
  pt2 : PointArg;
  line_color : Scalar }.

(** ** The world and the monad of drawing computations *)

Record World := mkWorld {
  heap : gmap loc Buffer;
  calls : list LineCall }.

(** A computation reads and writes the world; [None] is undefined behaviour. *)
Definition Cv (A : Type) : Type := World → option (A * World).

#[global] Instance Cv_ret : MRet Cv := λ A a w, Some (a, w).
#[global] Instance Cv_bind : MBind Cv := λ A B f m w,
  match m w with
  | Some (a, w') => f a w'
  | None => None
  end.

Definition lift_option {A} (o : option A) : Cv A :=
  λ w, match o with Some a => Some (a, w) | None => None end.

(** [for (const auto& x : l) body(x);] *)
Fixpoint for_each {A} (l : list A) (body : A → Cv unit) : Cv unit :=
  match l with
  | [] => mret tt
  | x :: l' => body x ;; for_each l' body
  end.

(** The pixels [m] shows in the world [w]. *)
Definition pixels (w : World) (m : Mat) : option Buffer :=
  l ← data m; heap w !! l.

(** The constructor [cv::Mat(rows, cols, type, s)]: a fresh buffer, every
    pixel set to [s]. *)
Definition Mat_create (r c : Z) (t : MatType) (s : Scalar) : Cv Mat :=
  λ w,
    let l := fresh (dom (heap w)) in
    let buf := replicate (Z.to_nat (r * c)) (pixel_of_scalar t s) in
    Some (mkMat r c t (Some l), mkWorld (<[l := buf]> (heap w)) (calls w)).

(** Two runs end alike: both are undefined, or both end and their final
    worlds are related by [R]. *)
Definition related_runs (R : World → World → Prop)
    (r1 r2 : option (unit * World)) : Prop :=
  match r1, r2 with
  | Some (_, w1), Some (_, w2) => R w1 w2
  | None, None => True
  | _, _ => False
  end.

Section DrawUtils.

(** OpenCV's rasteriser: the buffer of a matrix of the given size and type
    after a line between two end points has been drawn in a colour. *)
Variable raster : Z → Z → MatType → Buffer → PointArg → PointArg → Scalar → Buffer.

(** The two helpers of eos::render that [draw_wireframe] calls. *)
Variable project : Vector3f → Matrix4f → Matrix4f → Vector4f → Vector3f.
Variable are_vertices_ccw_in_screen_space : Vector2f → Vector2f → Vector2f → bool.

(** [cv::line(image, pt1, pt2, color)] *)
Definition cv_line (image : Mat) (a b : PointArg) (color : Scalar) : Cv unit :=
  λ w,
    let draw := raster (rows image) (cols image) (type image) in
    let h := match data image with
             | Some l => alter (λ buf, draw buf a b color) l (heap w)
             | None => heap w
             end in
    Some (tt, mkWorld h (calls w ++ [mkLine image a b color])).

(** [cv::Point(x, y)] with two [float] arguments. *)
Definition Point_of_floats (x y : float) : Cv PointArg :=
  xi ← lift_option (float_to_int x);
  yi ← lift_option (float_to_int y);
  mret (FromPoint (mkPoint xi yi)).

Definition default_wireframe_color : Scalar :=
  Scalar_ 0 255 (Some 0%Q) (Some 255%Q).

(** The body of the loop of [draw_wireframe]. *)
Definition draw_wireframe_triangle (image : Mat) (mesh : Mesh)
    (modelview projection : Matrix4f) (viewport : Vector4f) (color : Scalar)
    (triangle : Triangle) : Cv unit :=
  v1 ← lift_option (at_index (vertices mesh) (idx0 triangle));
  let p1 := project v1 modelview projection viewport in
  v2 ← lift_option (at_index (vertices mesh) (idx1 triangle));
  let p2 := project v2 modelview projection viewport in
  v3 ← lift_option (at_index (vertices mesh) (idx2 triangle));
  let p3 := project v3 modelview projection viewport in
  if are_vertices_ccw_in_screen_space (head2 p1) (head2 p2) (head2 p3) then
    (a ← Point_of_floats (v3x p1) (v3y p1);
     b ← Point_of_floats (v3x p2) (v3y p2);
     cv_line image a b color) ;;
    (a ← Point_of_floats (v3x p2) (v3y p2);
     b ← Point_of_floats (v3x p3) (v3y p3);
     cv_line image a b color) ;;
    (a ← Point_of_floats (v3x p3) (v3y p3);
     b ← Point_of_floats (v3x p1) (v3y p1);
     cv_line image a b color)
  else mret tt.

(** [draw_wireframe(image, mesh, modelview, projection, viewport, color)];
    [color = None] when the caller leaves the argument out. *)
Definition draw_wireframe (image : Mat) (mesh : Mesh)
    (modelview projection : Matrix4f) (viewport : Vector4f)
    (color : option Scalar) : Cv unit :=
  let color := default default_wireframe_color color in
  for_each (tvi mesh)
    (draw_wireframe_triangle image mesh modelview projection viewport color).

(** [Point2f(mesh.texcoords[i][0] * image.cols, mesh.texcoords[i][1] * image.rows)] *)
Definition texcoord_point (mesh : Mesh) (image : Mat) (i : Z) : Cv PointArg :=
  uv ← lift_option (at_index (texcoords mesh) i);
  mret (FromPoint2f (mkPoint2f (v2x uv * int_to_float (cols image))%Q
                               (v2y uv * int_to_float (rows image))%Q)).

Definition texcoords_color : Scalar := Scalar_ 255 0 (Some 0%Q) None.

(** The body of the loop of [draw_texcoords]. *)
Definition draw_texcoords_triangle (mesh : Mesh) (image : Mat)
    (triIdx : Triangle) : Cv unit :=
  (a ← texcoord_point mesh image (idx0 triIdx);
   b ← texcoord_point mesh image (idx1 triIdx);
   cv_line image a b texcoords_color) ;;
  (a ← texcoord_point mesh image (idx1 triIdx);
   b ← texcoord_point mesh image (idx2 triIdx);
   cv_line image a b texcoords_color) ;;
  (a ← texcoord_point mesh image (idx2 triIdx);
   b ← texcoord_point mesh image (idx0 triIdx);
   cv_line image a b texcoords_color).

(** [draw_texcoords(mesh, image)]; [image = None] when the caller leaves
    the argument out, which stands for [cv::Mat()]. *)
Definition draw_texcoords (mesh : Mesh) (image : option Mat) : Cv Mat :=
  let image := default Mat_default image in
  image ← (if Mat_empty image
           then Mat_create 512 512 CV_8UC4 (Scalar_ 0 0 (Some 0%Q) (Some 255%Q))
           else mret image);
  for_each (tvi mesh) (draw_texcoords_triangle mesh image) ;;
  mret image.

(** *** What a run does, read off the log

    The calls of a run, as a pure function of the arguments: the buffers
    of the store after the run are the buffers before it with the logged
    calls replayed, in order. *)

(** The buffer of the target of [c] after the call. *)
Definition paint (c : LineCall) (buf : Buffer) : Buffer :=
  raster (rows (target c)) (cols (target c)) (type (target c)) buf
         (pt1 c) (pt2 c) (line_color c).

Definition apply_call (h : gmap loc Buffer) (c : LineCall) : gmap loc Buffer :=
  match data (target c) with
  | Some l => alter (paint c) l h
  | None => h
  end.

Definition replay (cs : list LineCall) (h : gmap loc Buffer) : gmap loc Buffer :=
  foldl apply_call h cs.

(** A buffer after the calls [cs], all on its matrix. *)
Definition paint_all (cs : list LineCall) (buf : Buffer) : Buffer :=
  foldl (λ b c, paint c b) buf cs.

(** The computation that makes the calls [g], or is undefined. *)
Definition emit (og : option (list LineCall)) : Cv unit :=
  λ w, match og with
       | Some g => Some (tt, mkWorld (replay g (heap w)) (calls w ++ g))
       | None => None
       end.

(** The pixel position a vertex projects to. *)
Definition int_point (p : Vector3f) : option PointArg :=
  xi ← float_to_int (v3x p);
  yi ← float_to_int (v3y p);
  Some (FromPoint (mkPoint xi yi)).

(** The calls [draw_wireframe] makes for one triangle. *)
Definition wireframe_edges (image : Mat) (mesh : Mesh)
    (modelview projection : Matrix4f) (viewport : Vector4f) (color : Scalar)
    (t : Triangle) : option (list LineCall) :=
  v1 ← at_index (vertices mesh) (idx0 t);
  v2 ← at_index (vertices mesh) (idx1 t);
  v3 ← at_index (vertices mesh) (idx2 t);
  let p1 := project v1 modelview projection viewport in
  let p2 := project v2 modelview projection viewport in
  let p3 := project v3 modelview projection viewport in
  if are_vertices_ccw_in_screen_space (head2 p1) (head2 p2) (head2 p3) then
    a1 ← int_point p1;
    a2 ← int_point p2;
    a3 ← int_point p3;
    Some [mkLine image a1 a2 color; mkLine image a2 a3 color; mkLine image a3 a1 color]
  else Some [].

(** What [draw_wireframe] does with a triangle whose corners project to
    [p1], [p2] and [p3]: three edges, or nothing. *)
Inductive wireframe_outcome (image : Mat) (color : Scalar)
    (p1 p2 p3 : Vector3f) : list LineCall → Prop :=
  | front_facing a1 a2 a3 :
      are_vertices_ccw_in_screen_space (head2 p1) (head2 p2) (head2 p3) = true →
      int_point p1 = Some a1 →
      int_point p2 = Some a2 →
      int_point p3 = Some a3 →
      wireframe_outcome image color p1 p2 p3
        [mkLine image a1 a2 color; mkLine image a2 a3 color; mkLine image a3 a1 color]
  | back_facing :
      are_vertices_ccw_in_screen_space (head2 p1) (head2 p2) (head2 p3) = false →
      wireframe_outcome image color p1 p2 p3 [].

(** A UV coordinate in the pixel space of [image]: U times the width, V
    times the height. *)
Definition scaled_uv (image : Mat) (uv : Vector2f) : PointArg :=
  FromPoint2f (mkPoint2f (v2x uv * inject_Z (cols image))%Q
                         (v2y uv * inject_Z (rows image))%Q).

Definition uv_point (mesh : Mesh) (image : Mat) (i : Z) : option PointArg :=
  uv ← at_index (texcoords mesh) i;
  Some (scaled_uv image uv).

(** The calls [draw_texcoords] makes for one triangle. *)
Definition texcoords_edges (mesh : Mesh) (image : Mat) (t : Triangle)
    : option (list LineCall) :=
  a ← uv_point mesh image (idx0 t);
  b ← uv_point mesh image (idx1 t);
  c ← uv_point mesh image (idx2 t);
  Some [mkLine image a b texcoords_color; mkLine image b c texcoords_color;
        mkLine image c a texcoords_color].

(** The mesh and the transforms keep [draw_wireframe] defined: every index
    is in range, and the corners of every triangle that is drawn project to
    [int] pixel positions. *)
Definition wireframe_triangle_defined (mesh : Mesh) (modelview projection : Matrix4f)
    (viewport : Vector4f) (t : Triangle) : bool :=
  match at_index (vertices mesh) (idx0 t), at_index (vertices mesh) (idx1 t),
        at_index (vertices mesh) (idx2 t) with
  | Some v1, Some v2, Some v3 =>
      let p1 := project v1 modelview projection viewport in
      let p2 := project v2 modelview projection viewport in
      let p3 := project v3 modelview projection viewport in
      if are_vertices_ccw_in_screen_space (head2 p1) (head2 p2) (head2 p3)
      then bool_decide (is_Some (int_point p1)) && bool_decide (is_Some (int_point p2))
           && bool_decide (is_Some (int_point p3))
      else true
  | _, _, _ => false
  end.

Definition wireframe_defined (mesh : Mesh) (modelview projection : Matrix4f)
    (viewport : Vector4f) : bool :=
  forallb (wireframe_triangle_defined mesh modelview projection viewport) (tvi mesh).

(** Every vertex a triangle names has a UV coordinate. *)
Definition texcoords_triangle_defined (mesh : Mesh) (t : Triangle) : bool :=
  bool_decide (is_Some (at_index (texcoords mesh) (idx0 t)))
  && bool_decide (is_Some (at_index (texcoords mesh) (idx1 t)))
  && bool_decide (is_Some (at_index (texcoords mesh) (idx2 t))).

Definition texcoords_defined (mesh : Mesh) : bool :=
  forallb (texcoords_triangle_defined mesh) (tvi mesh).

End DrawUtils.

(** The canvas [draw_texcoords] allocates: 512 x 512 pixels of four channels. *)
Definition default_canvas_pixels : Buffer :=
  replicate (Z.to_nat (512 * 512)) [0%Q; 0%Q; 0%Q; 255%Q].

Arguments default_canvas_pixels : simpl never.

(** The canvas [draw_texcoords] draws on, and the world with that canvas in
    it: the caller's canvas, or a fresh one when the caller's is empty. *)
Definition texcoords_canvas (image : option Mat) (w : World) : Mat * World :=
  let image := default Mat_default image in
  if Mat_empty image
  then let l := fresh (dom (heap w)) in
       (mkMat 512 512 CV_8UC4 (Some l),
        mkWorld (<[l := default_canvas_pixels]> (heap w)) (calls w))
  else (image, w).

(** A stand-in for OpenCV's rasteriser, for running the renderers: it paints
    the two end points of a line and nothing in between. *)
Definition pixel_index (r c : Z) (p : PointArg) : option nat :=
  let '(x, y) := match p with
                 | FromPoint q => (px q, py q)
                 | FromPoint2f q => (cvRound (fx q), cvRound (fy q))
                 end in
  if (0 <=? x) && (x <? c) && (0 <=? y) && (y <? r)
  then Some (Z.to_nat (y * c + x)) else None.

Definition put_pixel (r c : Z) (p : PointArg) (v : Pixel) (buf : Buffer) : Buffer :=
  match pixel_index r c p with
  | Some i => <[i := v]> buf
  | None => buf
  end.

Definition end_points_raster (r c : Z) (t : MatType) (buf : Buffer)
    (a b : PointArg) (color : Scalar) : Buffer :=
  put_pixel r c b (pixel_of_scalar t color) (put_pixel r c a (pixel_of_scalar t color) buf).

(** ** Index ranges, triangle lists and orientation *)

(** [i] is an index of the vector [v]. *)
Definition index_in_range {A} (v : list A) (i : Z) : Prop :=
  0 ≤ i < Z.of_nat (length v).

(** The three indices of a triangle are indices of [v]. *)
Definition triangle_in_range {A} (v : list A) (t : Triangle) : Prop :=
  index_in_range v (idx0 t) ∧ index_in_range v (idx1 t) ∧ index_in_range v (idx2 t).

(** The mesh [mesh] with the triangle list [ts]. *)
Definition with_triangles (mesh : Mesh) (ts : list Triangle) : Mesh :=
  mkMesh (vertices mesh) (texcoords mesh) ts.



(** The end point is the [int] pixel position next to the screen point
    [(x, y)] on the side of zero: an [int], no farther from zero than the
    coordinate and less than one pixel away from it. *)
Definition truncated_from (x y : float) (p : PointArg) : Prop :=
  match p with
  | FromPoint q =>
      INT_MIN ≤ px q ≤ INT_MAX ∧ INT_MIN ≤ py q ≤ INT_MAX
      ∧ (Qabs (inject_Z (px q)) <= Qabs x ∧ Qabs (x - inject_Z (px q)) < 1
         ∧ Qabs (inject_Z (py q)) <= Qabs y ∧ Qabs (y - inject_Z (py q)) < 1)%Q
  | FromPoint2f _ => False
  end.

Section Orientation.

Variable project : Vector3f → Matrix4f → Matrix4f → Vector4f → Vector3f.
Variable are_vertices_ccw_in_screen_space : Vector2f → Vector2f → Vector2f → bool.

(** The triangle has its three vertices and the classifier reports their
    projections as counter-clockwise. *)
Definition front_facing_triangle (mesh : Mesh) (modelview projection : Matrix4f)
    (viewport : Vector4f) (t : Triangle) : bool :=
  match at_index (vertices mesh) (idx0 t), at_index (vertices mesh) (idx1 t),
        at_index (vertices mesh) (idx2 t) with
  | Some v1, Some v2, Some v3 =>
      are_vertices_ccw_in_screen_space
        (head2 (project v1 modelview projection viewport))
        (head2 (project v2 modelview projection viewport))
        (head2 (project v3 modelview projection viewport))
  | _, _, _ => false
  end.

End Orientation.

(** A triangle that names a vertex the mesh does not have. *)
Definition bad_index_mesh : Mesh := with_triangles
  (mkMesh [Vec3 (-1) (-1) 0; Vec3 1 (-1) 0; Vec3 0 1 0]
          [Vec2 0 0; Vec2 1 0; Vec2 0 1] [])
  [Tri 0 1 3].

(** ** Equality of vectors and matrices as rational values *)




(** ** Inputs for running the renderers *)

(** One triangle, counter-clockwise on the screen under the identity
    transforms, with the UV coordinates (0,0), (1,0), (0,1). *)
Definition front_mesh : Mesh :=
  mkMesh [Vec3 (-1) (-1) 0; Vec3 1 (-1) 0; Vec3 0 1 0]
         [Vec2 0 0; Vec2 1 0; Vec2 0 1]
         [Tri 0 1 2].

(** The same triangle with the index order reversed. *)
Definition back_mesh : Mesh :=
  mkMesh (vertices front_mesh) (texcoords front_mesh) [Tri 2 1 0].

(** The same vertices and no triangle. *)
Definition no_triangle_mesh : Mesh :=
  mkMesh (vertices front_mesh) (texcoords front_mesh) [].

(** A viewport of 8 x 6 pixels at the origin. *)
Definition small_viewport : Vector4f := Vec4 0 0 8 6.

Definition black_8x6 : Buffer := replicate 48 [0%Q; 0%Q; 0%Q; 255%Q].

(** Two canvases of 8 x 6 pixels on two buffers with the same pixels. *)
Definition canvas1 : Mat := mkMat 6 8 CV_8UC4 (Some 1%positive).
Definition canvas2 : Mat := mkMat 6 8 CV_8UC4 (Some 2%positive).

Definition two_canvases : World :=
  mkWorld (<[2%positive := black_8x6]> {[ 1%positive := black_8x6 ]}) [].

Definition empty_world : World := mkWorld ∅ [].

(** * Properties *)

(** ** Scalars *)


Lemma Qltb_ge (a b : Q) : Qltb a b = false ↔ (b <= a)%Q.
Proof. unfold Qltb, Qle. rewrite Z.ltb_ge. reflexivity. Qed.

Lemma float_to_int_Some (q : Q) (z : Z) :
  float_to_int q = Some z → z = truncate q ∧ INT_MIN ≤ z ≤ INT_MAX.
Proof.
  unfold float_to_int. intros H.
  destruct (INT_MIN <=? truncate q) eqn:Hlo; simpl in H; [|discriminate].
  destruct (truncate q <=? INT_MAX) eqn:Hhi; [|discriminate].
  injection H as <-. apply Z.leb_le in Hlo, Hhi. auto.
Qed.

(** [truncate] drops the fractional part: the result lies between zero and
    [q], less than one away from [q]. *)
Lemma truncate_toward_zero (q : Q) :
  ((0 <= q → inject_Z (truncate q) <= q < inject_Z (truncate q) + 1)
   ∧ (q <= 0 → inject_Z (truncate q) - 1 < q <= inject_Z (truncate q)))%Q.
Proof.
  destruct q as [n d]. unfold truncate, Qle, Qlt; simpl.
  pose proof (Z.quot_rem' n (Z.pos d)) as Hqr.
  split; intros Hs.
  - assert (0 ≤ n) as Hn by lia.
    pose proof (Z.rem_bound_pos n (Z.pos d) Hn ltac:(lia)). nia.
  - assert (n ≤ 0) as Hn by lia.
    pose proof (Z.rem_bound_pos_neg n (Z.pos d) ltac:(lia) Hn). nia.
Qed.

(** ** The classifier and the projector *)






(** ** Runs and their logs *)

Section DrawUtilsProperties.

Context (raster : Z → Z → MatType → Buffer → PointArg → PointArg → Scalar → Buffer).
Context (project : Vector3f → Matrix4f → Matrix4f → Vector4f → Vector3f).
Context (are_vertices_ccw_in_screen_space : Vector2f → Vector2f → Vector2f → bool).

Local Abbreviation emit := (emit raster).
Local Abbreviation replay := (replay raster).
Local Abbreviation draw_wf :=
  (draw_wireframe raster project are_vertices_ccw_in_screen_space).
Local Abbreviation wf_edges :=
  (wireframe_edges project are_vertices_ccw_in_screen_space).

Lemma replay_app (cs1 cs2 : list LineCall) (h : gmap loc Buffer) :
  replay (cs1 ++ cs2) h = replay cs2 (replay cs1 h).
Proof. apply foldl_app. Qed.

Lemma emit_ret (w : World) : (mret tt : Cv unit) w = emit (Some []) w.
Proof. destruct w as [h cs]. unfold emit; simpl. rewrite app_nil_r. reflexivity. Qed.

Lemma emit_seq (m n : Cv unit) (a b : option (list LineCall)) :
  (∀ w, m w = emit a w) → (∀ w, n w = emit b w) →
  ∀ w, (m ;; n) w = emit (g1 ← a; g2 ← b; Some (g1 ++ g2)) w.
Proof.
  intros Hm Hn w. unfold mbind, Cv_bind. rewrite Hm.
  destruct a as [g1|]; simpl; [|reflexivity].
  rewrite Hn. destruct b as [g2|]; simpl; [|reflexivity].
  rewrite replay_app, app_assoc. reflexivity.
Qed.

Lemma emit_line (image : Mat) (a b : PointArg) (color : Scalar) (w : World) :
  cv_line raster image a b color w = emit (Some [mkLine image a b color]) w.
Proof. reflexivity. Qed.

Lemma emit_for_each {A} (body : A → Cv unit) (f : A → option (list LineCall)) :
  (∀ x w, body x w = emit (f x) w) →
  ∀ l w, for_each l body w = emit (gs ← mapM f l; Some (concat gs)) w.
Proof.
  intros Hbody l. induction l as [|x l IH]; intros w.
  - apply emit_ret.
  - simpl for_each. rewrite (emit_seq _ _ _ _ (Hbody x) IH). f_equal.
    simpl. destruct (f x) as [g|]; simpl; [|reflexivity].
    destruct (mapM f l) as [gs|]; reflexivity.
Qed.

Lemma Point_of_floats_run (p : Vector3f) (w : World) :
  Point_of_floats (v3x p) (v3y p) w = (λ a, (a, w)) <$> int_point p.
Proof.
  unfold Point_of_floats, int_point, mbind, Cv_bind, lift_option.
  destruct (float_to_int (v3x p)); simpl; [|reflexivity].
  destruct (float_to_int (v3y p)); reflexivity.
Qed.

Lemma emit_edge (image : Mat) (color : Scalar) (p q : Vector3f) (w : World) :
  (a ← Point_of_floats (v3x p) (v3y p);
   b ← Point_of_floats (v3x q) (v3y q);
   cv_line raster image a b color) w
  = emit (a ← int_point p; b ← int_point q; Some [mkLine image a b color]) w.
Proof.
  unfold mbind at 1 2, Cv_bind. rewrite Point_of_floats_run.
  destruct (int_point p) as [a|]; simpl; [|reflexivity].
  rewrite Point_of_floats_run.
  destruct (int_point q) as [b|]; simpl; [|reflexivity].
  apply emit_line.
Qed.

Lemma draw_wireframe_triangle_run image mesh modelview projection viewport color t w :
  draw_wireframe_triangle raster project are_vertices_ccw_in_screen_space
    image mesh modelview projection viewport color t w
  = emit (wf_edges image mesh modelview projection viewport color t) w.
Proof.
  unfold draw_wireframe_triangle, wireframe_edges.
  unfold mbind at 1 2 3, Cv_bind, lift_option.
  destruct (at_index (vertices mesh) (idx0 t)) as [v1|]; simpl; [|reflexivity].
  destruct (at_index (vertices mesh) (idx1 t)) as [v2|]; simpl; [|reflexivity].
  destruct (at_index (vertices mesh) (idx2 t)) as [v3|]; simpl; [|reflexivity].
  destruct (are_vertices_ccw_in_screen_space _ _ _); [|apply emit_ret].
  rewrite (emit_seq _ _ _ _ (emit_edge image color _ _)
             (emit_seq _ _ _ _ (emit_edge image color _ _) (emit_edge image color _ _))).
  f_equal.
  destruct (int_point (project v1 _ _ _)), (int_point (project v2 _ _ _)),
    (int_point (project v3 _ _ _)); reflexivity.
Qed.

Lemma draw_wireframe_run image mesh modelview projection viewport color w :
  draw_wf image mesh modelview projection viewport color w
  = emit (gs ← mapM (wf_edges image mesh modelview projection viewport
                       (default default_wireframe_color color)) (tvi mesh);
          Some (concat gs)) w.
Proof.
  unfold draw_wireframe. apply emit_for_each.
  intros t w'. apply draw_wireframe_triangle_run.
Qed.

Lemma texcoord_point_run (mesh : Mesh) (image : Mat) (i : Z) (w : World) :
  texcoord_point mesh image i w = (λ a, (a, w)) <$> uv_point mesh image i.
Proof.
  unfold texcoord_point, uv_point, mbind, Cv_bind, lift_option.
  destruct (at_index (texcoords mesh) i); reflexivity.
Qed.

Lemma emit_uv_edge (mesh : Mesh) (image : Mat) (i j : Z) (w : World) :
  (a ← texcoord_point mesh image i;
   b ← texcoord_point mesh image j;
   cv_line raster image a b texcoords_color) w
  = emit (a ← uv_point mesh image i; b ← uv_point mesh image j;
          Some [mkLine image a b texcoords_color]) w.
Proof.
  unfold mbind at 1 2, Cv_bind. rewrite texcoord_point_run.
  destruct (uv_point mesh image i) as [a|]; simpl; [|reflexivity].
  rewrite texcoord_point_run.
  destruct (uv_point mesh image j) as [b|]; simpl; [|reflexivity].
  apply emit_line.
Qed.

Lemma draw_texcoords_triangle_run (mesh : Mesh) (image : Mat) (t : Triangle) (w : World) :
  draw_texcoords_triangle raster mesh image t w = emit (texcoords_edges mesh image t) w.
Proof.
  unfold draw_texcoords_triangle, texcoords_edges.
  rewrite (emit_seq _ _ _ _ (emit_uv_edge mesh image _ _)
             (emit_seq _ _ _ _ (emit_uv_edge mesh image _ _) (emit_uv_edge mesh image _ _))).
  f_equal.
  destruct (uv_point mesh image (idx0 t)), (uv_point mesh image (idx1 t)),
    (uv_point mesh image (idx2 t)); reflexivity.
Qed.

Lemma pixel_of_background :
  pixel_of_scalar CV_8UC4 (Scalar_ 0 0 (Some 0%Q) (Some 255%Q)) = [0%Q; 0%Q; 0%Q; 255%Q].
Proof. reflexivity. Qed.

Lemma draw_texcoords_run (mesh : Mesh) (image : option Mat) (w : World) :
  draw_texcoords raster mesh image w
  = (λ r, ((texcoords_canvas image w).1, r.2))
      <$> emit (gs ← mapM (texcoords_edges mesh (texcoords_canvas image w).1) (tvi mesh);
                Some (concat gs)) (texcoords_canvas image w).2.
Proof.
  unfold draw_texcoords, texcoords_canvas.
  destruct (Mat_empty (default Mat_default image)).
  - unfold mbind at 1, Cv_bind at 1, Mat_create.
    cbv beta iota zeta. rewrite pixel_of_background.
    unfold default_canvas_pixels.
    unfold mbind at 1, Cv_bind at 1, fst, snd.
    rewrite (emit_for_each _ _ (draw_texcoords_triangle_run mesh _)).
    destruct (emit _ _) as [[[] w']|]; reflexivity.
  - unfold mbind at 1, Cv_bind at 1, mret at 1, Cv_ret at 1.
    cbv beta iota zeta. unfold mbind at 1, Cv_bind at 1, fst, snd.
    rewrite (emit_for_each _ _ (draw_texcoords_triangle_run mesh _)).
    destruct (emit _ _) as [[[] w']|]; reflexivity.
Qed.

(** *** Reading a run *)

Lemma emit_Some (og : option (list LineCall)) (w w' : World) (u : unit) :
  emit og w = Some (u, w') →
  ∃ g, og = Some g ∧ w' = mkWorld (replay g (heap w)) (calls w ++ g).
Proof.
  unfold emit. destruct og as [g|]; [|discriminate].
  intros [= _ <-]. eauto.
Qed.

Lemma at_index_elem_of {A} (l : list A) (i : Z) (x : A) :
  at_index l i = Some x → x ∈ l.
Proof.
  unfold at_index. destruct (0 <=? i); [|discriminate].
  apply list_elem_of_lookup_2.
Qed.


Lemma wireframe_edges_outcome image mesh modelview projection viewport color t g :
  wf_edges image mesh modelview projection viewport color t = Some g →
  ∃ v1 v2 v3,
    at_index (vertices mesh) (idx0 t) = Some v1
    ∧ at_index (vertices mesh) (idx1 t) = Some v2
    ∧ at_index (vertices mesh) (idx2 t) = Some v3
    ∧ wireframe_outcome are_vertices_ccw_in_screen_space image color
        (project v1 modelview projection viewport)
        (project v2 modelview projection viewport)
        (project v3 modelview projection viewport) g.
Proof.
  unfold wireframe_edges. intros H.
  destruct (at_index (vertices mesh) (idx0 t)) as [v1|]; simpl in H; [|discriminate].
  destruct (at_index (vertices mesh) (idx1 t)) as [v2|]; simpl in H; [|discriminate].
  destruct (at_index (vertices mesh) (idx2 t)) as [v3|]; simpl in H; [|discriminate].
  exists v1, v2, v3. repeat split.
  destruct (are_vertices_ccw_in_screen_space _ _ _) eqn:Hccw.
  - destruct (int_point (project v1 _ _ _)) as [a1|] eqn:H1; simpl in H; [|discriminate].
    destruct (int_point (project v2 _ _ _)) as [a2|] eqn:H2; simpl in H; [|discriminate].
    destruct (int_point (project v3 _ _ _)) as [a3|] eqn:H3; simpl in H; [|discriminate].
    injection H as <-. by apply front_facing.
  - injection H as <-. by apply back_facing.
Qed.

Lemma wireframe_defined_edges image mesh modelview projection viewport color :
  wireframe_defined project are_vertices_ccw_in_screen_space
    mesh modelview projection viewport = true →
  is_Some (mapM (wf_edges image mesh modelview projection viewport color) (tvi mesh)).
Proof.
  unfold wireframe_defined. rewrite forallb_forall. intros Hdef.
  apply mapM_is_Some_2, Forall_forall. intros t Ht.
  apply list_elem_of_In, Hdef in Ht.
  unfold wireframe_triangle_defined in Ht. unfold compose, wireframe_edges.
  destruct (at_index (vertices mesh) (idx0 t)) as [v1|]; [|discriminate].
  destruct (at_index (vertices mesh) (idx1 t)) as [v2|]; [|discriminate].
  destruct (at_index (vertices mesh) (idx2 t)) as [v3|]; [|discriminate].
  simpl in *. destruct (are_vertices_ccw_in_screen_space _ _ _); [|by eexists].
  apply andb_prop in Ht as [Ht H3]. apply andb_prop in Ht as [H1 H2].
  apply bool_decide_eq_true in H1 as [a1 ->], H2 as [a2 ->], H3 as [a3 ->].
  by eexists.
Qed.

Lemma texcoords_edges_shape (mesh : Mesh) (image : Mat) (t : Triangle) g :
  texcoords_edges mesh image t = Some g →
  ∃ uv0 uv1 uv2,
    at_index (texcoords mesh) (idx0 t) = Some uv0
    ∧ at_index (texcoords mesh) (idx1 t) = Some uv1
    ∧ at_index (texcoords mesh) (idx2 t) = Some uv2
    ∧ g = [mkLine image (scaled_uv image uv0) (scaled_uv image uv1) texcoords_color;
           mkLine image (scaled_uv image uv1) (scaled_uv image uv2) texcoords_color;
           mkLine image (scaled_uv image uv2) (scaled_uv image uv0) texcoords_color].
Proof.
  unfold texcoords_edges, uv_point. intros H.
  destruct (at_index (texcoords mesh) (idx0 t)) as [uv0|]; simpl in H; [|discriminate].
  destruct (at_index (texcoords mesh) (idx1 t)) as [uv1|]; simpl in H; [|discriminate].
  destruct (at_index (texcoords mesh) (idx2 t)) as [uv2|]; simpl in H; [|discriminate].
  injection H as <-. by exists uv0, uv1, uv2.
Qed.

Lemma texcoords_defined_edges (mesh : Mesh) (image : Mat) :
  texcoords_defined mesh = true →
  is_Some (mapM (texcoords_edges mesh image) (tvi mesh)).
Proof.
  unfold texcoords_defined. rewrite forallb_forall. intros Hdef.
  apply mapM_is_Some_2, Forall_forall. intros t Ht.
  apply list_elem_of_In, Hdef in Ht.
  unfold texcoords_triangle_defined in Ht. unfold compose, texcoords_edges, uv_point.
  apply andb_prop in Ht as [Ht H2]. apply andb_prop in Ht as [H0 H1].
  apply bool_decide_eq_true in H0 as [uv0 ->], H1 as [uv1 ->], H2 as [uv2 ->].
  by eexists.
Qed.

Lemma texcoords_canvas_calls (image : option Mat) (w : World) :
  calls (texcoords_canvas image w).2 = calls w.
Proof. unfold texcoords_canvas. by destruct (Mat_empty _). Qed.

Lemma mapM_concat_Forall {A} (f : A → option (list LineCall)) (P : LineCall → Prop)
    (l : list A) (gs : list (list LineCall)) :
  mapM f l = Some gs →
  (∀ x g, f x = Some g → Forall P g) →
  Forall P (concat gs).
Proof.
  intros Hgs HP. apply Forall_concat. apply mapM_Some_1 in Hgs.
  eapply Forall2_Forall_r; [exact Hgs|].
  apply Forall_forall. intros x _ g. apply HP.
Qed.

Lemma draw_wireframe_Some image mesh modelview projection viewport color w u w' :
  draw_wf image mesh modelview projection viewport color w = Some (u, w') →
  ∃ gs,
    mapM (wf_edges image mesh modelview projection viewport
            (default default_wireframe_color color)) (tvi mesh) = Some gs
    ∧ w' = mkWorld (replay (concat gs) (heap w)) (calls w ++ concat gs).
Proof.
  rewrite draw_wireframe_run. intros (g & Hg & ->)%emit_Some.
  destruct (mapM _ (tvi mesh)) as [gs|]; [|discriminate].
  injection Hg as <-. eauto.
Qed.

Lemma draw_texcoords_Some (mesh : Mesh) (image : option Mat) (w : World) canvas w' :
  draw_texcoords raster mesh image w = Some (canvas, w') →
  ∃ gs,
    mapM (texcoords_edges mesh canvas) (tvi mesh) = Some gs
    ∧ canvas = (texcoords_canvas image w).1
    ∧ w' = mkWorld (replay (concat gs) (heap (texcoords_canvas image w).2))
                   (calls w ++ concat gs).
Proof.
  rewrite draw_texcoords_run. intros H.
  destruct (emit _ _) as [[u w'']|] eqn:Hrun; [|discriminate].
  injection H as <- <-.
  apply emit_Some in Hrun as (g & Hg & ->).
  destruct (mapM _ (tvi mesh)) as [gs|]; [|discriminate].
  injection Hg as <-. exists gs.
  by rewrite texcoords_canvas_calls.
Qed.

Lemma draw_texcoords_defined_run (mesh : Mesh) (image : option Mat) (w : World) :
  texcoords_defined mesh = true →
  ∃ gs,
    mapM (texcoords_edges mesh (texcoords_canvas image w).1) (tvi mesh) = Some gs
    ∧ draw_texcoords raster mesh image w
      = Some ((texcoords_canvas image w).1,
              mkWorld (replay (concat gs) (heap (texcoords_canvas image w).2))
                      (calls w ++ concat gs)).
Proof.
  intros Hdef.
  destruct (texcoords_defined_edges mesh (texcoords_canvas image w).1 Hdef)
    as [gs Hgs].
  exists gs. split; [exact Hgs|].
  rewrite draw_texcoords_run, Hgs. cbn [mbind option_bind fmap option_fmap option_map emit snd].
  by rewrite texcoords_canvas_calls.
Qed.

(** *** The buffers after a run *)

Lemma replay_dom (cs : list LineCall) (h : gmap loc Buffer) :
  dom (replay cs h) = dom h.
Proof.
  revert h. induction cs as [|c cs IH]; intros h; [reflexivity|].
  simpl. rewrite IH. unfold apply_call.
  destruct (data (target c)); [apply dom_alter_L | reflexivity].
Qed.

Lemma replay_lookup_target (image : Mat) (l : loc) (cs : list LineCall)
    (h : gmap loc Buffer) :
  Forall (λ c, target c = image) cs →
  data image = Some l →
  replay cs h !! l = paint_all raster cs <$> h !! l.
Proof.
  intros Hcs Hl. revert h.
  induction Hcs as [|c cs Hc _ IH]; intros h.
  - unfold replay, paint_all. simpl. by destruct (h !! l).
  - unfold replay, paint_all in *. simpl. rewrite IH. unfold apply_call.
    rewrite Hc, Hl, lookup_alter_eq. by destruct (h !! l).
Qed.


Lemma replay_pixels (image : Mat) (cs cs0 cs1 : list LineCall) (h : gmap loc Buffer) :
  Forall (λ c, target c = image) cs →
  pixels (mkWorld (replay cs h) cs1) image
  = paint_all raster cs <$> pixels (mkWorld h cs0) image.
Proof.
  intros Hcs. unfold pixels. simpl. destruct (data image) as [l|] eqn:Hl; simpl.
  - by apply replay_lookup_target with image.
  - reflexivity.
Qed.

Lemma texcoords_edges_target (mesh : Mesh) (image : Mat) (t : Triangle) g :
  texcoords_edges mesh image t = Some g → Forall (λ c, target c = image) g.
Proof.
  intros (uv0 & uv1 & uv2 & _ & _ & _ & ->)%texcoords_edges_shape.
  by repeat constructor.
Qed.

(** *** The wireframe renderer draws whole triangles *)

(** C1. When the mesh and the transforms keep [draw_wireframe] defined, the
    run succeeds and the calls it adds to the log fall into one group per
    triangle, in mesh order: for a triangle the classifier reports as
    counter-clockwise the group is the three edges p1-p2, p2-p3, p3-p1
    between the pixel positions of its projected corners, in the given
    colour; for any other triangle the group is empty. *)
Theorem draw_wireframe_whole_triangles image mesh modelview projection viewport color w :
  wireframe_defined project are_vertices_ccw_in_screen_space
    mesh modelview projection viewport = true →
  ∃ w' groups,
    draw_wf image mesh modelview projection viewport color w = Some (tt, w')
    ∧ calls w' = calls w ++ concat groups
    ∧ Forall2 (λ t g, ∃ v1 v2 v3,
          at_index (vertices mesh) (idx0 t) = Some v1
          ∧ at_index (vertices mesh) (idx1 t) = Some v2
          ∧ at_index (vertices mesh) (idx2 t) = Some v3
          ∧ wireframe_outcome are_vertices_ccw_in_screen_space image
              (default default_wireframe_color color)
              (project v1 modelview projection viewport)
              (project v2 modelview projection viewport)
              (project v3 modelview projection viewport) g)
        (tvi mesh) groups.
Proof.
  intros Hdef. rewrite draw_wireframe_run.
  destruct (wireframe_defined_edges image mesh modelview projection viewport
              (default default_wireframe_color color) Hdef) as [groups Hgroups].
  rewrite Hgroups. simpl. eexists _, groups. split; [reflexivity|]. split; [reflexivity|].
  apply mapM_Some_1 in Hgroups.
  eapply Forall2_impl; [exact Hgroups|].
  intros t g. apply wireframe_edges_outcome.
Qed.

(** *** The UV overlay draws every triangle *)


(** *** The canvas of the UV overlay *)


(** *** A mesh without triangles *)

(** C8. For a mesh with no triangle, [draw_wireframe] ends in the world it
    started in (no call is logged, no buffer changes); [draw_texcoords]
    returns a non-empty canvas of the caller in an unchanged world; and
    without such a canvas it returns a canvas on a buffer that is new to the
    store and holds the background pixels, and nothing else changes. *)
Theorem empty_mesh_draws_nothing image mesh modelview projection viewport color w :
  tvi mesh = [] →
  draw_wf image mesh modelview projection viewport color w = Some (tt, w)
  ∧ (∀ canvas, Mat_empty canvas = false →
       draw_texcoords raster mesh (Some canvas) w = Some (canvas, w))
  ∧ (∀ canvas, Mat_empty (default Mat_default canvas) = true →
       ∃ l, (l ∉ dom (heap w))
            ∧ draw_texcoords raster mesh canvas w
              = Some (mkMat 512 512 CV_8UC4 (Some l),
                      mkWorld (<[l := default_canvas_pixels]> (heap w)) (calls w))).
Proof.
  intros Hempty. split; [|split].
  - unfold draw_wireframe. rewrite Hempty. reflexivity.
  - intros canvas Hcanvas.
    rewrite draw_texcoords_run. unfold texcoords_canvas. simpl default.
    rewrite Hcanvas, Hempty. destruct w as [h cs]. simpl.
    by rewrite app_nil_r.
  - intros canvas Hcanvas. exists (fresh (dom (heap w))).
    split; [apply is_fresh|].
    rewrite draw_texcoords_run. unfold texcoords_canvas.
    rewrite Hcanvas, Hempty. simpl. by rewrite app_nil_r.
Qed.

(** *** Determinism *)

Lemma pixels_apply_call (image : Mat) (a b : PointArg) (color : Scalar)
    (h : gmap loc Buffer) (cs cs' : list LineCall) :
  pixels (mkWorld (apply_call raster h (mkLine image a b color)) cs) image
  = (λ buf, raster (rows image) (cols image) (type image) buf a b color)
      <$> pixels (mkWorld h cs') image.
Proof.
  unfold pixels, apply_call. simpl. destruct (data image) as [l|]; simpl.
  - apply lookup_alter_eq.
  - reflexivity.
Qed.

Lemma for_each_related {A} (R : World → World → Prop) (body1 body2 : A → Cv unit) :
  (∀ x w1 w2, R w1 w2 → related_runs R (body1 x w1) (body2 x w2)) →
  ∀ l w1 w2, R w1 w2 → related_runs R (for_each l body1 w1) (for_each l body2 w2).
Proof.
  intros Hbody l. induction l as [|x l IH]; intros w1 w2 HR; [exact HR|].
  simpl. unfold mbind, Cv_bind. specialize (Hbody x w1 w2 HR).
  destruct (body1 x w1) as [[[] w1']|], (body2 x w2) as [[[] w2']|]; simpl in *;
    try done.
  by apply IH.
Qed.

(** C9. Two calls of [draw_wireframe] with the same mesh, transforms,
    viewport and colour, on two canvases of the same size and type whose
    pixels are the same, end alike: both are undefined, or both end and
    the two canvases hold the same pixels again. *)
Theorem draw_wireframe_deterministic image1 image2 mesh modelview projection
    viewport color w1 w2 :
  rows image1 = rows image2 →
  cols image1 = cols image2 →
  type image1 = type image2 →
  pixels w1 image1 = pixels w2 image2 →
  related_runs (λ w1' w2', pixels w1' image1 = pixels w2' image2)
    (draw_wf image1 mesh modelview projection viewport color w1)
    (draw_wf image2 mesh modelview projection viewport color w2).
Proof.
  intros Hrows Hcols Htype Hpixels. unfold draw_wireframe.
  apply for_each_related; [|exact Hpixels].
  clear w1 w2 Hpixels. intros t [h1 cs1] [h2 cs2] HR.
  rewrite !draw_wireframe_triangle_run. unfold wireframe_edges.
  destruct (at_index (vertices mesh) (idx0 t)) as [v1|]; simpl; [|done].
  destruct (at_index (vertices mesh) (idx1 t)) as [v2|]; simpl; [|done].
  destruct (at_index (vertices mesh) (idx2 t)) as [v3|]; simpl; [|done].
  destruct (are_vertices_ccw_in_screen_space _ _ _); [|exact HR].
  destruct (int_point (project v1 _ _ _)) as [a1|]; simpl; [|done].
  destruct (int_point (project v2 _ _ _)) as [a2|]; simpl; [|done].
  destruct (int_point (project v3 _ _ _)) as [a3|]; simpl; [|done].
  rewrite !(pixels_apply_call image1 _ _ _ _ _ cs1).
  rewrite !(pixels_apply_call image2 _ _ _ _ _ cs2).
  by rewrite Hrows, Hcols, Htype, HR.
Qed.

(** *** The end points of the lines *)


End DrawUtilsProperties.

(** ** The helpers of eos::render *)









(** ** The renderers on a mesh of one triangle *)

Example front_facing_triangle_drawn :
  calls ∘ snd <$> draw_wireframe end_points_raster matrix_projection.project
                    detail.are_vertices_ccw_in_screen_space canvas1 front_mesh
                    identity4 identity4 small_viewport None two_canvases
  = Some [mkLine canvas1 (FromPoint (mkPoint 0 6)) (FromPoint (mkPoint 8 6))
            (mkScalar 0 255 0 255);
          mkLine canvas1 (FromPoint (mkPoint 8 6)) (FromPoint (mkPoint 4 0))
            (mkScalar 0 255 0 255);
          mkLine canvas1 (FromPoint (mkPoint 4 0)) (FromPoint (mkPoint 0 6))
            (mkScalar 0 255 0 255)].
Proof. vm_compute. reflexivity. Qed.

Example back_facing_triangle_culled :
  draw_wireframe end_points_raster matrix_projection.project
    detail.are_vertices_ccw_in_screen_space canvas1 back_mesh
    identity4 identity4 small_viewport None two_canvases
  = Some (tt, two_canvases).
Proof. vm_compute. reflexivity. Qed.

Example uv_triangle_touches_corners :
  (λ r, (rows r.1, cols r.1, pt1 <$> calls r.2, pt2 <$> calls r.2))
    <$> draw_texcoords end_points_raster front_mesh None empty_world
  = Some (512, 512,
          [FromPoint2f (mkPoint2f 0 0); FromPoint2f (mkPoint2f 512 0);
           FromPoint2f (mkPoint2f 0 512)],
          [FromPoint2f (mkPoint2f 512 0); FromPoint2f (mkPoint2f 0 512);
           FromPoint2f (mkPoint2f 0 0)]).
Proof. vm_compute. reflexivity. Qed.

(** C6. On the mesh of one triangle and no canvas, [draw_texcoords] logs
    three calls, each with the colour (255, 0, 0, 0): the fourth channel is
    left out of the constructor and is zero, not the 255 of the background
    and of the default colour of [draw_wireframe], (0, 255, 0, 255). *)
Theorem texcoords_color_alpha_zero :
  (λ r, line_color <$> calls r.2)
    <$> draw_texcoords end_points_raster front_mesh None empty_world
  = Some [mkScalar 255 0 0 0; mkScalar 255 0 0 0; mkScalar 255 0 0 0]
  ∧ val3 texcoords_color = 0%Q
  ∧ pixel_of_scalar CV_8UC4 texcoords_color = [255%Q; 0%Q; 0%Q; 0%Q]
  ∧ default_canvas_pixels !! 0%nat = Some [0%Q; 0%Q; 0%Q; 255%Q]
  ∧ default_wireframe_color = mkScalar 0 255 0 255.
Proof.
  split; [vm_compute; reflexivity|].
  repeat split; reflexivity.
Qed.

(** ** The theorems at the inputs above *)

Lemma draw_wireframe_whole_triangles_witness :
  wireframe_defined matrix_projection.project detail.are_vertices_ccw_in_screen_space
    front_mesh identity4 identity4 small_viewport = true
  ∧ ∃ w' groups,
      draw_wireframe end_points_raster matrix_projection.project
        detail.are_vertices_ccw_in_screen_space canvas1 front_mesh
        identity4 identity4 small_viewport None two_canvases = Some (tt, w')
      ∧ calls w' = calls two_canvases ++ concat groups
      ∧ Forall2 (λ t g, ∃ v1 v2 v3,
            at_index (vertices front_mesh) (idx0 t) = Some v1
            ∧ at_index (vertices front_mesh) (idx1 t) = Some v2
            ∧ at_index (vertices front_mesh) (idx2 t) = Some v3
            ∧ wireframe_outcome detail.are_vertices_ccw_in_screen_space canvas1
                default_wireframe_color
                (matrix_projection.project v1 identity4 identity4 small_viewport)
                (matrix_projection.project v2 identity4 identity4 small_viewport)
                (matrix_projection.project v3 identity4 identity4 small_viewport) g)
          (tvi front_mesh) groups.
Proof.
  split; [vm_compute; reflexivity|].
  apply (draw_wireframe_whole_triangles end_points_raster matrix_projection.project
           detail.are_vertices_ccw_in_screen_space canvas1 front_mesh
           identity4 identity4 small_viewport None two_canvases).
  vm_compute. reflexivity.
Defined.



Lemma empty_mesh_draws_nothing_witness :
  tvi no_triangle_mesh = []
  ∧ draw_wireframe end_points_raster matrix_projection.project
      detail.are_vertices_ccw_in_screen_space canvas1 no_triangle_mesh
      identity4 identity4 small_viewport None two_canvases = Some (tt, two_canvases)
  ∧ draw_texcoords end_points_raster no_triangle_mesh (Some canvas1) two_canvases
    = Some (canvas1, two_canvases)
  ∧ ∃ l, (l ∉ dom (heap two_canvases))
         ∧ draw_texcoords end_points_raster no_triangle_mesh None two_canvases
           = Some (mkMat 512 512 CV_8UC4 (Some l),
                   mkWorld (<[l := default_canvas_pixels]> (heap two_canvases))
                           (calls two_canvases)).
Proof.
  split; [reflexivity|].
  destruct (empty_mesh_draws_nothing end_points_raster matrix_projection.project
              detail.are_vertices_ccw_in_screen_space canvas1 no_triangle_mesh
              identity4 identity4 small_viewport None two_canvases eq_refl)
    as (Hwireframe & Hgiven & Hfresh).
  split; [exact Hwireframe|].
  split; [exact (Hgiven canvas1 eq_refl)|].
  exact (Hfresh None eq_refl).
Defined.

Lemma draw_wireframe_deterministic_witness :
  pixels two_canvases canvas1 = pixels two_canvases canvas2
  ∧ related_runs (λ w1' w2', pixels w1' canvas1 = pixels w2' canvas2)
      (draw_wireframe end_points_raster matrix_projection.project
         detail.are_vertices_ccw_in_screen_space canvas1 front_mesh
         identity4 identity4 small_viewport None two_canvases)
      (draw_wireframe end_points_raster matrix_projection.project
         detail.are_vertices_ccw_in_screen_space canvas2 front_mesh
         identity4 identity4 small_viewport None two_canvases).
Proof.
  split; [vm_compute; reflexivity|].
  apply (draw_wireframe_deterministic end_points_raster matrix_projection.project
           detail.are_vertices_ccw_in_screen_space canvas1 canvas2 front_mesh
           identity4 identity4 small_viewport None two_canvases two_canvases);
    vm_compute; reflexivity.
Defined.



(** * More on the two renderers *)

Lemma at_index_is_Some {A} (v : list A) (i : Z) :
  is_Some (at_index v i) ↔ index_in_range v i.
Proof.
  unfold at_index, index_in_range. destruct (0 <=? i) eqn:Hi.
  - apply Z.leb_le in Hi. rewrite lookup_lt_is_Some. lia.
  - apply Z.leb_gt in Hi. split; [intros [x Hx]; discriminate | lia].
Qed.

Lemma truncate_sign (q : Q) :
  ((0 <= q → 0 <= inject_Z (truncate q)) ∧ (q <= 0 → inject_Z (truncate q) <= 0))%Q.
Proof.
  destruct q as [n d]. unfold truncate, Qle; simpl. split; intros Hs.
  - pose proof (Z.quot_pos n (Z.pos d) ltac:(lia) ltac:(lia)). lia.
  - assert (0 ≤ (- n) `quot` Z.pos d) as H
      by (apply Z.quot_pos; lia).
    rewrite Z.quot_opp_l in H by lia. lia.
Qed.

Lemma truncate_near (q : Q) :
  (Qabs (inject_Z (truncate q)) <= Qabs q ∧ Qabs (q - inject_Z (truncate q)) < 1)%Q.
Proof.
  destruct (truncate_toward_zero q) as [Hpos Hneg].
  destruct (truncate_sign q) as [Hspos Hsneg].
  rewrite Qabs_Qle_condition, Qabs_Qlt_condition.
  destruct (Qlt_le_dec q 0) as [Hq|Hq].
  - rewrite (Qabs_neg q) by lra.
    specialize (Hneg ltac:(lra)). specialize (Hsneg ltac:(lra)). lra.
  - rewrite (Qabs_pos q) by lra.
    specialize (Hpos Hq). specialize (Hspos Hq). lra.
Qed.

Lemma truncate_truncated_from (x y : Q) (xi yi : Z) :
  float_to_int x = Some xi → float_to_int y = Some yi →
  truncated_from x y (FromPoint (mkPoint xi yi)).
Proof.
  intros [-> Hx]%float_to_int_Some [-> Hy]%float_to_int_Some. simpl.
  split; [exact Hx|]. split; [exact Hy|].
  destruct (truncate_near x), (truncate_near y). auto.
Qed.

Section DrawUtilsMore.

Context (raster : Z → Z → MatType → Buffer → PointArg → PointArg → Scalar → Buffer).
Context (project : Vector3f → Matrix4f → Matrix4f → Vector4f → Vector3f).
Context (are_vertices_ccw_in_screen_space : Vector2f → Vector2f → Vector2f → bool).

(** ** When the renderers are defined *)



(** X1. A triangle with an index that is negative or not below the number
    of vertices makes [draw_wireframe] undefined, wherever the triangle
    stands in the list and whichever way it faces: the three vertices are
    read before the orientation is tested. *)
Theorem draw_wireframe_index_out_of_range image mesh modelview projection viewport
    color w (t : Triangle) :
  t ∈ tvi mesh →
  ¬ triangle_in_range (vertices mesh) t →
  draw_wireframe raster project are_vertices_ccw_in_screen_space image mesh modelview projection viewport color w = None.
Proof.
  intros Ht Hbad. rewrite draw_wireframe_run.
  rewrite (mapM_None_2 _ (tvi mesh)); [reflexivity|].
  apply Exists_exists. exists t. split; [exact Ht|].
  apply eq_None_not_Some. intros Hsome. apply Hbad.
  unfold triangle_in_range. rewrite <- !at_index_is_Some.
  revert Hsome. unfold wireframe_edges.
  destruct (at_index (vertices mesh) (idx0 t)); simpl; [|intros [? ?]; discriminate].
  destruct (at_index (vertices mesh) (idx1 t)); simpl; [|intros [? ?]; discriminate].
  destruct (at_index (vertices mesh) (idx2 t)); simpl; [|intros [? ?]; discriminate].
  eauto.
Qed.



(** ** What a run of [draw_wireframe] leaves alone *)

Lemma wireframe_edges_calls image mesh modelview projection viewport color t g :
  wireframe_edges project are_vertices_ccw_in_screen_space image mesh modelview projection viewport color t = Some g →
  Forall (λ c, target c = image ∧ line_color c = color) g.
Proof.
  intros (v1 & v2 & v3 & _ & _ & _ & Hout)%wireframe_edges_outcome.
  destruct Hout; repeat constructor.
Qed.

Lemma replay_frame (image : Mat) (cs : list LineCall) (h : gmap loc Buffer) (l : loc) :
  Forall (λ c, target c = image) cs →
  data image ≠ Some l →
  replay raster cs h !! l = h !! l.
Proof.
  intros Hcs Hl. revert h.
  induction Hcs as [|c cs Hc _ IH]; intros h; [reflexivity|].
  unfold replay in *. simpl. rewrite IH. unfold apply_call. rewrite Hc.
  destruct (data image) as [l0|]; [|reflexivity].
  apply lookup_alter_ne. congruence.
Qed.

(** X4. A run of [draw_wireframe] that ends has allocated nothing and has
    changed no buffer but the one of [image]: the store has the buffers it
    had, every other buffer holds what it held, every call it logged is on
    [image] in the colour of the call (the default when none is given), and
    the pixels of [image] are its old pixels with exactly those calls
    painted, in order. *)
Theorem draw_wireframe_frame image mesh modelview projection viewport color w u w' :
  draw_wireframe raster project are_vertices_ccw_in_screen_space image mesh modelview projection viewport color w = Some (u, w') →
  dom (heap w') = dom (heap w)
  ∧ (∀ l, data image ≠ Some l → heap w' !! l = heap w !! l)
  ∧ ∃ new, calls w' = calls w ++ new
      ∧ Forall (λ c, target c = image
                     ∧ line_color c = default default_wireframe_color color) new
      ∧ pixels w' image = paint_all raster new <$> pixels w image.
Proof.
  intros (gs & Hgs & ->)%draw_wireframe_Some.
  assert (Forall (λ c, target c = image
                       ∧ line_color c = default default_wireframe_color color)
            (concat gs)) as Hcalls.
  { eapply mapM_concat_Forall; [exact Hgs|]. intros t g. apply wireframe_edges_calls. }
  assert (Forall (λ c, target c = image) (concat gs)) as Htarget.
  { eapply Forall_impl; [exact Hcalls|]. by intros c [? _]. }
  split; [apply replay_dom|]. split.
  - intros l Hl. by apply replay_frame with image.
  - exists (concat gs). split; [reflexivity|]. split; [exact Hcalls|].
    destruct w as [h cs]. by apply replay_pixels.
Qed.

(** ** How many lines are drawn *)

Lemma wireframe_edges_length image mesh modelview projection viewport color t g :
  wireframe_edges project are_vertices_ccw_in_screen_space image mesh modelview projection viewport color t = Some g →
  length g = if front_facing_triangle project are_vertices_ccw_in_screen_space mesh modelview projection viewport t then 3%nat else 0%nat.
Proof.
  unfold wireframe_edges, front_facing_triangle. intros H.
  destruct (at_index (vertices mesh) (idx0 t)) as [v1|]; simpl in H; [|discriminate].
  destruct (at_index (vertices mesh) (idx1 t)) as [v2|]; simpl in H; [|discriminate].
  destruct (at_index (vertices mesh) (idx2 t)) as [v3|]; simpl in H; [|discriminate].
  destruct (are_vertices_ccw_in_screen_space _ _ _).
  - destruct (int_point (project v1 _ _ _)); simpl in H; [|discriminate].
    destruct (int_point (project v2 _ _ _)); simpl in H; [|discriminate].
    destruct (int_point (project v3 _ _ _)); simpl in H; [|discriminate].
    by injection H as <-.
  - by injection H as <-.
Qed.

(** X5. A run of [draw_wireframe] that ends has logged three calls of
    [cv::line] for each triangle the classifier reports as counter-clockwise
    and none for the others: three times the number of front-facing
    triangles in all. *)
Theorem draw_wireframe_call_count image mesh modelview projection viewport color w u w' :
  draw_wireframe raster project are_vertices_ccw_in_screen_space image mesh modelview projection viewport color w = Some (u, w') →
  length (calls w')
  = (length (calls w)
     + 3 * length (List.filter (front_facing_triangle project are_vertices_ccw_in_screen_space mesh modelview projection viewport)
                     (tvi mesh)))%nat.
Proof.
  intros (gs & Hgs & ->)%draw_wireframe_Some. simpl. rewrite length_app. f_equal.
  apply mapM_Some_1 in Hgs.
  induction Hgs as [|t g ts gs' Hg _ IH]; [reflexivity|].
  simpl. rewrite length_app, IH, (wireframe_edges_length _ _ _ _ _ _ _ _ Hg).
  destruct (front_facing_triangle project are_vertices_ccw_in_screen_space mesh modelview projection viewport t); simpl; lia.
Qed.

(** X6. A run of [draw_texcoords] that ends has logged exactly three calls
    of [cv::line] per triangle of the mesh. *)
Theorem draw_texcoords_call_count (mesh : Mesh) (image : option Mat) (w : World)
    canvas w' :
  draw_texcoords raster mesh image w = Some (canvas, w') →
  length (calls w') = (length (calls w) + 3 * length (tvi mesh))%nat.
Proof.
  intros (gs & Hgs & _ & ->)%draw_texcoords_Some. simpl. rewrite length_app. f_equal.
  apply mapM_Some_1 in Hgs.
  induction Hgs as [|t g ts gs' Hg _ IH]; [reflexivity|].
  apply texcoords_edges_shape in Hg as (uv0 & uv1 & uv2 & _ & _ & _ & ->).
  simpl in *. rewrite IH. lia.
Qed.

(** ** Drawing a mesh in two parts *)

Lemma for_each_app {A} (body : A → Cv unit) (l1 l2 : list A) (w : World) :
  for_each (l1 ++ l2) body w = (for_each l1 body ;; for_each l2 body) w.
Proof.
  revert w. induction l1 as [|x l1 IH]; intros w; [reflexivity|].
  simpl. unfold mbind, Cv_bind in *.
  destruct (body x w) as [[[] w1]|]; [apply IH | reflexivity].
Qed.

(** X7. Drawing the wireframe of a mesh whose triangle list is [ts1 ++ ts2]
    is drawing the triangles [ts1] and then, on the same canvas, the
    triangles [ts2]: the same result, the same log and the same buffers, or
    undefined in both. *)
Theorem draw_wireframe_app image mesh modelview projection viewport color
    (ts1 ts2 : list Triangle) (w : World) :
  draw_wireframe raster project are_vertices_ccw_in_screen_space image (with_triangles mesh (ts1 ++ ts2))
    modelview projection viewport color w
  = (draw_wireframe raster project are_vertices_ccw_in_screen_space image (with_triangles mesh ts1) modelview projection viewport color ;;
     draw_wireframe raster project are_vertices_ccw_in_screen_space image (with_triangles mesh ts2) modelview projection viewport color) w.
Proof.
  unfold draw_wireframe. simpl tvi. apply for_each_app.
Qed.

Lemma draw_texcoords_given (mesh : Mesh) (canvas : Mat) (w : World) :
  Mat_empty canvas = false →
  draw_texcoords raster mesh (Some canvas) w
  = (for_each (tvi mesh) (draw_texcoords_triangle raster mesh canvas) ;; mret canvas) w.
Proof.
  intros Hcanvas. unfold draw_texcoords. simpl default. rewrite Hcanvas.
  reflexivity.
Qed.

(** X8. On a canvas of the caller that is not empty, drawing the UV layout
    of a mesh whose triangle list is [ts1 ++ ts2] is drawing the triangles
    [ts1] and then drawing the triangles [ts2] on the canvas the first call
    returns. *)
Theorem draw_texcoords_app (mesh : Mesh) (canvas : Mat) (ts1 ts2 : list Triangle)
    (w : World) :
  Mat_empty canvas = false →
  draw_texcoords raster (with_triangles mesh (ts1 ++ ts2)) (Some canvas) w
  = (c ← draw_texcoords raster (with_triangles mesh ts1) (Some canvas);
     draw_texcoords raster (with_triangles mesh ts2) (Some c)) w.
Proof.
  intros Hcanvas. rewrite (draw_texcoords_given _ _ _ Hcanvas).
  unfold mbind at 2, Cv_bind at 2. rewrite (draw_texcoords_given _ _ _ Hcanvas).
  simpl tvi. unfold mbind, Cv_bind. rewrite for_each_app.
  unfold mbind, Cv_bind.
  change (draw_texcoords_triangle raster (with_triangles mesh (ts1 ++ ts2)) canvas)
    with (draw_texcoords_triangle raster (with_triangles mesh ts1) canvas).
  destruct (for_each ts1 _ w) as [[[] w1]|]; [|reflexivity].
  simpl. rewrite (draw_texcoords_given _ _ _ Hcanvas). reflexivity.
Qed.

(** ** What a run of [draw_texcoords] leaves alone *)

Lemma texcoords_edges_calls (mesh : Mesh) (image : Mat) (t : Triangle) g :
  texcoords_edges mesh image t = Some g →
  Forall (λ c, target c = image ∧ line_color c = mkScalar 255 0 0 0) g.
Proof.
  intros (uv0 & uv1 & uv2 & _ & _ & _ & ->)%texcoords_edges_shape.
  by repeat constructor.
Qed.

Lemma draw_texcoords_targets (mesh : Mesh) (canvas : Mat) gs :
  mapM (texcoords_edges mesh canvas) (tvi mesh) = Some gs →
  Forall (λ c, target c = canvas) (concat gs).
Proof.
  intros Hgs. eapply mapM_concat_Forall; [exact Hgs|]. apply texcoords_edges_target.
Qed.

Lemma texcoords_canvas_frame (image : option Mat) (w : World) (l : loc) :
  data (texcoords_canvas image w).1 ≠ Some l →
  heap (texcoords_canvas image w).2 !! l = heap w !! l.
Proof.
  unfold texcoords_canvas. destruct (Mat_empty _); cbn [fst snd heap data]; [|done].
  intros Hl. apply lookup_insert_ne. congruence.
Qed.

(** X9. A run of [draw_texcoords] that ends has drawn on the canvas it
    returns and nowhere else: every call it logged is on that canvas, in the
    one colour (255, 0, 0, 0), and a buffer that is not the buffer of that
    canvas holds what it held before the call. *)
Theorem draw_texcoords_frame (mesh : Mesh) (image : option Mat) (w : World) canvas w' :
  draw_texcoords raster mesh image w = Some (canvas, w') →
  (∀ l, data canvas ≠ Some l → heap w' !! l = heap w !! l)
  ∧ ∃ new, calls w' = calls w ++ new
      ∧ Forall (λ c, target c = canvas ∧ line_color c = mkScalar 255 0 0 0) new.
Proof.
  intros (gs & Hgs & Hcanvas & ->)%draw_texcoords_Some. split.
  - intros l Hl. cbn [heap].
    rewrite (replay_frame canvas _ _ l (draw_texcoords_targets mesh canvas gs Hgs) Hl).
    apply texcoords_canvas_frame. by rewrite <- Hcanvas.
  - exists (concat gs). split; [reflexivity|].
    eapply mapM_concat_Forall; [exact Hgs|]. apply texcoords_edges_calls.
Qed.

(** ** Where the end points lie *)



Lemma int_point_truncated (p : Vector3f) (a : PointArg) :
  int_point p = Some a → truncated_from (v3x p) (v3y p) a.
Proof.
  unfold int_point. intros H.
  destruct (float_to_int (v3x p)) as [xi|] eqn:Hx; simpl in H; [|discriminate].
  destruct (float_to_int (v3y p)) as [yi|] eqn:Hy; simpl in H; [|discriminate].
  injection H as <-. by apply truncate_truncated_from.
Qed.

(** X11. Both end points of every line [draw_wireframe] draws are [int]
    pixel positions of projected vertices of the mesh, each coordinate
    within the range of [int], no farther from zero than the projected
    coordinate and less than one pixel away from it. *)
Theorem draw_wireframe_end_points_near image mesh modelview projection viewport
    color w u w' :
  draw_wireframe raster project are_vertices_ccw_in_screen_space image mesh modelview projection viewport color w = Some (u, w') →
  ∃ new, calls w' = calls w ++ new
    ∧ Forall (λ c, ∃ v v',
          v ∈ vertices mesh ∧ v' ∈ vertices mesh
          ∧ truncated_from (v3x (project v modelview projection viewport))
              (v3y (project v modelview projection viewport)) (pt1 c)
          ∧ truncated_from (v3x (project v' modelview projection viewport))
              (v3y (project v' modelview projection viewport)) (pt2 c)) new.
Proof.
  intros (gs & Hgs & ->)%draw_wireframe_Some.
  exists (concat gs). split; [reflexivity|].
  eapply mapM_concat_Forall; [exact Hgs|]. intros t g Hg.
  apply wireframe_edges_outcome in Hg as (v1 & v2 & v3 & H1 & H2 & H3 & Hout).
  apply at_index_elem_of in H1, H2, H3.
  destruct Hout as [a1 a2 a3 _ Ha1%int_point_truncated Ha2%int_point_truncated
                      Ha3%int_point_truncated|_]; [|constructor].
  repeat constructor; simpl pt1; simpl pt2; eauto 10.
Qed.

(** ** Canvases the renderer allocates *)

(** X12. Two calls of [draw_texcoords] without a canvas, one after the
    other, return canvases on two different buffers, and the second call
    leaves the pixels of the first canvas as the first call left them. *)
Theorem draw_texcoords_fresh_canvases (mesh1 mesh2 : Mesh) (image1 image2 : option Mat)
    (w w1 w2 : World) (c1 c2 : Mat) :
  Mat_empty (default Mat_default image1) = true →
  Mat_empty (default Mat_default image2) = true →
  draw_texcoords raster mesh1 image1 w = Some (c1, w1) →
  draw_texcoords raster mesh2 image2 w1 = Some (c2, w2) →
  data c1 ≠ data c2
  ∧ is_Some (pixels w1 c1)
  ∧ pixels w2 c1 = pixels w1 c1.
Proof.
  intros Hempty1 Hempty2 (gs1 & Hgs1 & Hc1 & Hw1)%draw_texcoords_Some
    (gs2 & Hgs2 & Hc2 & Hw2)%draw_texcoords_Some.
  unfold texcoords_canvas in Hc1, Hw1, Hc2, Hw2.
  rewrite Hempty1 in Hc1, Hw1. rewrite Hempty2 in Hc2, Hw2.
  cbn [fst snd heap] in Hc1, Hw1, Hc2, Hw2.
  set (l1 := fresh (dom (heap w))) in *. set (l2 := fresh (dom (heap w1))) in *.
  assert (l1 ∈ dom (heap w1)) as Hl1.
  { rewrite Hw1. cbn [heap]. rewrite replay_dom, dom_insert_L. set_solver. }
  assert (l2 ≠ l1) as Hne.
  { intros Heq. pose proof (is_fresh (dom (heap w1))) as Hfresh.
    fold l2 in Hfresh. by rewrite Heq in Hfresh. }
  assert (data c1 = Some l1) as Hd1 by (by rewrite Hc1).
  assert (data c2 = Some l2) as Hd2 by (by rewrite Hc2).
  split; [rewrite Hd1, Hd2; congruence|].
  unfold pixels. rewrite Hd1. cbn [mbind option_bind].
  split; [by apply elem_of_dom|].
  rewrite Hw2 at 1. cbn [heap].
  assert (data c2 ≠ Some l1) as Hother by (rewrite Hd2; congruence).
  rewrite (replay_frame c2 _ _ l1 (draw_texcoords_targets mesh2 c2 gs2 Hgs2) Hother).
  by apply lookup_insert_ne.
Qed.

End DrawUtilsMore.

(** ** The theorems above at concrete inputs *)

Lemma draw_wireframe_index_out_of_range_witness :
  draw_wireframe end_points_raster matrix_projection.project
    detail.are_vertices_ccw_in_screen_space canvas1 bad_index_mesh
    identity4 identity4 small_viewport None two_canvases = None.
Proof.
  apply (draw_wireframe_index_out_of_range end_points_raster matrix_projection.project
           detail.are_vertices_ccw_in_screen_space canvas1 bad_index_mesh
           identity4 identity4 small_viewport None two_canvases (Tri 0 1 3)).
  - constructor.
  - intros (_ & _ & [_ Hlt]). vm_compute in Hlt. discriminate.
Defined.

Lemma draw_wireframe_frame_witness :
  ∃ w', draw_wireframe end_points_raster matrix_projection.project
          detail.are_vertices_ccw_in_screen_space canvas1 front_mesh
          identity4 identity4 small_viewport None two_canvases = Some (tt, w')
    ∧ dom (heap w') = dom (heap two_canvases)
    ∧ pixels w' canvas2 = pixels two_canvases canvas2.
Proof.
  destruct (draw_wireframe end_points_raster matrix_projection.project
              detail.are_vertices_ccw_in_screen_space canvas1 front_mesh
              identity4 identity4 small_viewport None two_canvases)
    as [[[] w']|] eqn:Hrun; [|vm_compute in Hrun; discriminate].
  exists w'. split; [reflexivity|].
  destruct (draw_wireframe_frame end_points_raster matrix_projection.project
              detail.are_vertices_ccw_in_screen_space canvas1 front_mesh
              identity4 identity4 small_viewport None two_canvases tt w' Hrun)
    as (Hdom & Hother & _).
  split; [exact Hdom|].
  apply (Hother 2%positive). discriminate.
Defined.

Lemma draw_wireframe_call_count_witness :
  ∃ w', draw_wireframe end_points_raster matrix_projection.project
          detail.are_vertices_ccw_in_screen_space canvas1
          (with_triangles front_mesh [Tri 0 1 2; Tri 2 1 0; Tri 1 2 0])
          identity4 identity4 small_viewport None two_canvases = Some (tt, w')
    ∧ length (calls w') = 6%nat.
Proof.
  destruct (draw_wireframe end_points_raster matrix_projection.project
              detail.are_vertices_ccw_in_screen_space canvas1
              (with_triangles front_mesh [Tri 0 1 2; Tri 2 1 0; Tri 1 2 0])
              identity4 identity4 small_viewport None two_canvases)
    as [[[] w']|] eqn:Hrun; [|vm_compute in Hrun; discriminate].
  exists w'. split; [reflexivity|].
  rewrite (draw_wireframe_call_count end_points_raster matrix_projection.project
             detail.are_vertices_ccw_in_screen_space canvas1 _
             identity4 identity4 small_viewport None two_canvases tt w' Hrun).
  reflexivity.
Defined.

Lemma draw_texcoords_call_count_witness :
  ∃ canvas w', draw_texcoords end_points_raster front_mesh (Some canvas2) two_canvases
               = Some (canvas, w')
    ∧ length (calls w') = 3%nat.
Proof.
  destruct (draw_texcoords end_points_raster front_mesh (Some canvas2) two_canvases)
    as [[canvas w']|] eqn:Hrun; [|vm_compute in Hrun; discriminate].
  exists canvas, w'. split; [reflexivity|].
  exact (draw_texcoords_call_count end_points_raster front_mesh (Some canvas2)
           two_canvases canvas w' Hrun).
Defined.

Lemma draw_texcoords_app_witness :
  Mat_empty canvas1 = false
  ∧ draw_texcoords end_points_raster
      (with_triangles front_mesh ([Tri 0 1 2] ++ [Tri 2 1 0])) (Some canvas1) two_canvases
    = (c ← draw_texcoords end_points_raster (with_triangles front_mesh [Tri 0 1 2])
             (Some canvas1);
       draw_texcoords end_points_raster (with_triangles front_mesh [Tri 2 1 0]) (Some c))
        two_canvases.
Proof.
  split; [reflexivity|].
  apply (draw_texcoords_app end_points_raster front_mesh canvas1 [Tri 0 1 2] [Tri 2 1 0]
           two_canvases).
  reflexivity.
Defined.

Lemma draw_texcoords_frame_witness :
  ∃ canvas w', draw_texcoords end_points_raster front_mesh (Some canvas2) two_canvases
               = Some (canvas, w')
    ∧ pixels w' canvas1 = pixels two_canvases canvas1
    ∧ Forall (λ c, target c = canvas ∧ line_color c = mkScalar 255 0 0 0) (calls w').
Proof.
  destruct (draw_texcoords end_points_raster front_mesh (Some canvas2) two_canvases)
    as [[canvas w']|] eqn:Hrun; [|vm_compute in Hrun; discriminate].
  exists canvas, w'. split; [reflexivity|].
  destruct (draw_texcoords_frame end_points_raster front_mesh (Some canvas2)
              two_canvases canvas w' Hrun) as (Hother & new & Hcalls & Hnew).
  split.
  - apply (Hother 1%positive).
    destruct (draw_texcoords_Some _ _ _ _ _ _ Hrun) as (_ & _ & -> & _). discriminate.
  - rewrite Hcalls. exact Hnew.
Defined.


Lemma draw_wireframe_end_points_near_witness :
  ∃ w', draw_wireframe end_points_raster matrix_projection.project
          detail.are_vertices_ccw_in_screen_space canvas1 front_mesh
          identity4 identity4 small_viewport None two_canvases = Some (tt, w')
    ∧ Forall (λ c, ∃ a b, pt1 c = FromPoint a ∧ pt2 c = FromPoint b
                          ∧ INT_MIN ≤ px a ≤ INT_MAX ∧ INT_MIN ≤ px b ≤ INT_MAX)
        (calls w').
Proof.
  destruct (draw_wireframe end_points_raster matrix_projection.project
              detail.are_vertices_ccw_in_screen_space canvas1 front_mesh
              identity4 identity4 small_viewport None two_canvases)
    as [[[] w']|] eqn:Hrun; [|vm_compute in Hrun; discriminate].
  exists w'. split; [reflexivity|].
  destruct (draw_wireframe_end_points_near end_points_raster matrix_projection.project
              detail.are_vertices_ccw_in_screen_space canvas1 front_mesh
              identity4 identity4 small_viewport None two_canvases tt w' Hrun)
    as (new & Hcalls & Hnew).
  rewrite Hcalls. eapply Forall_impl; [exact Hnew|].
  intros c (v & v' & _ & _ & H1 & H2).
  destruct (pt1 c) as [a|a], (pt2 c) as [b|b]; try done.
  exists a, b. destruct H1 as (? & _), H2 as (? & _). auto.
Defined.

Lemma draw_texcoords_fresh_canvases_witness :
  ∃ c1 w1 c2 w2,
    draw_texcoords end_points_raster front_mesh None empty_world = Some (c1, w1)
    ∧ draw_texcoords end_points_raster back_mesh None w1 = Some (c2, w2)
    ∧ data c1 ≠ data c2
    ∧ pixels w2 c1 = pixels w1 c1.
Proof.
  destruct (draw_texcoords_defined_run end_points_raster front_mesh None empty_world
              eq_refl) as (gs1 & _ & Hrun1).
  eexists _, _. 
  destruct (draw_texcoords_defined_run end_points_raster back_mesh None
              (mkWorld (replay end_points_raster (concat gs1)
                          (heap (texcoords_canvas None empty_world).2))
                       (calls empty_world ++ concat gs1)) eq_refl)
    as (gs2 & _ & Hrun2).
  eexists _, _. split; [exact Hrun1|]. split; [exact Hrun2|].
  destruct (draw_texcoords_fresh_canvases end_points_raster front_mesh back_mesh
              None None _ _ _ _ _ eq_refl eq_refl Hrun1 Hrun2) as (Hne & _ & Hsame).
  split; [exact Hne | exact Hsame].
Defined.
